(** * Noysim: the viewer launcher [bin/runviewer.pyw]

    The launcher is a Python module of five statements:

<<
      6  import noysim.viewer
      8  app = noysim.viewer.wx.PySimpleApp()
      9  app.frame = noysim.viewer.ViewerFrame()
     10  app.frame.Show()
     11  app.MainLoop()
>>

    It is embedded below as a program in a small state-and-exception monad
    over a Python-like store: the module's global namespace, a heap of
    objects with attribute dictionaries, and a log of the operations the
    launcher issues.  The code the launcher calls into (the import machinery,
    the [noysim.viewer] module and wxPython) is not part of the launcher; it
    is a parameter of the development, the [World].

    What the model takes for granted:
    - called code reads and changes the heap; it does not rebind names in
      the launcher's namespace;
    - an attribute read or store made by the launcher itself ([noysim.viewer],
      [app.frame], [app.frame = ...]) is a read or store of the object's
      attribute dictionary; the lookup of a called method is left to the
      called code;
    - a piece of called code returns, raises, or never comes back; nothing
      else interrupts the launcher. *)

From Stdlib Require Import Ascii String.
From stdpp Require Import base option list strings gmap fin_maps.

Local Open Scope string_scope.
Local Open Scope list_scope.

(** ** Values, objects and the store *)

Definition loc := positive.

(** A Python value as far as the launcher can tell them apart: [None] or a
    reference to an object (module, class instance, ...). *)
Inductive value : Type :=
  | VNone
  | VRef (l : loc).
Arguments VRef l%_positive.

#[global] Instance value_eq_dec : EqDecision value.
Proof. solve_decision. Defined.

(** An object is its attribute dictionary ([__dict__]). *)
Abbreviation object := (gmap string value).
Abbreviation heap := (gmap loc (gmap string value)).
Abbreviation namespace := (gmap string value).

(** Exceptions.  [NameError] and [AttributeError] are the ones the
    launcher's own name and attribute lookups can raise; everything raised
    by called code is carried as is. *)
Inductive exn : Type :=
  | NameError (x : string)
  | AttributeError (a : string)
  | ImportError (m : string)
  | OtherError (tag : string).

(** What the launcher asks of the code outside it and of the heap, logged
    at the moment of asking: an import, a call, an attribute store. *)
Inductive event : Type :=
  | EvImport (name : string)
  | EvCall (recv : value) (meth : string) (args : list value)
  | EvSetAttr (target : value) (attr : string) (v : value).

Record state : Type := mkState {
  globals : gmap string value;
  heap_of : gmap loc (gmap string value);
  trace : list event
}.

Definition start (g : namespace) (h : heap) : state :=
  {| globals := g; heap_of := h; trace := [] |}.

Definition log (e : event) (s : state) : state :=
  {| globals := globals s; heap_of := heap_of s; trace := trace s ++ [e] |}.

Definition set_heap (h : heap) (s : state) : state :=
  {| globals := globals s; heap_of := h; trace := trace s |}.

Definition set_global (x : string) (v : value) (s : state) : state :=
  {| globals := <[x := v]> (globals s); heap_of := heap_of s; trace := trace s |}.

(** ** The code outside the launcher *)

(** What a piece of called code does with the heap: it returns a value,
    raises, or never comes back. *)
Inductive outcome : Type :=
  | Returns (v : value) (h : heap)
  | Throws (e : exn) (h : heap)
  | Hangs.

(** [ext_import name h] is the effect of importing the dotted module [name]
    (it yields the top-level package object); [ext_call recv meth args h] is
    the effect of the call [recv.meth(args)]. *)
Record World : Type := mkWorld {
  ext_import : string -> heap -> outcome;
  ext_call : value -> string -> list value -> heap -> outcome
}.

(** ** The monad *)

Inductive result (A : Type) : Type :=
  | Normal (a : A) (s : state)
  | Raise (e : exn) (s : state)
  | NoReturn (s : state).
Arguments Normal {A} a s.
Arguments Raise {A} e s.
Arguments NoReturn {A} s.

Definition M (A : Type) : Type := state -> result A.

Definition ret {A} (a : A) : M A := fun s => Normal a s.

Definition bind {A B} (m : M A) (k : A -> M B) : M B :=
  fun s =>
    match m s with
    | Normal a s' => k a s'
    | Raise e s' => Raise e s'
    | NoReturn s' => NoReturn s'
    end.

Declare Scope py_scope.
Delimit Scope py_scope with py.
Notation "'let!' x ':=' m 'in' k" := (bind m (fun x => k))
  (at level 10, x name, m at level 100, k at level 200) : py_scope.
Notation "'do!' m 'in' k" := (bind m (fun _ => k))
  (at level 10, m at level 100, k at level 200) : py_scope.
Local Open Scope py_scope.

(** The state in which a run stopped, however it stopped. *)
Definition final {A} (r : result A) : state :=
  match r with
  | Normal _ s => s
  | Raise _ s => s
  | NoReturn s => s
  end.

Definition events {A} (r : result A) : list event := trace (final r).

Definition completed {A} (r : result A) : bool :=
  match r with
  | Normal _ _ => true
  | _ => false
  end.

(** ** Primitive operations of the interpreter *)

(** The name an [import a.b.c] statement binds: the first component. *)
Fixpoint top_component (name : string) : string :=
  match name with
  | EmptyString => EmptyString
  | String c rest =>
      if Ascii.eqb c "."%char then EmptyString
      else String c (top_component rest)
  end.

(** The attribute [a] of [v] in the heap [h], if [v] is an object that has
    one. *)
Definition read_attr (h : heap) (v : value) (a : string) : option value :=
  match v with
  | VRef l => h !! l ≫= (fun o : object => o !! a)
  | VNone => None
  end.

(** The value of the dotted read [v.a1.a2...] in the heap [h]. *)
Fixpoint read_path (h : heap) (v : value) (attrs : list string) : option value :=
  match attrs with
  | [] => Some v
  | a :: rest => read_attr h v a ≫= (fun v' => read_path h v' rest)
  end.

Section Interp.
Context (W : World).

(** [LOAD_NAME x] at module level. *)
Definition load_name (x : string) : M value :=
  fun s =>
    match globals s !! x with
    | Some v => Normal v s
    | None => Raise (NameError x) s
    end.

(** [STORE_NAME x] at module level. *)
Definition store_name (x : string) (v : value) : M unit :=
  fun s => Normal tt (set_global x v s).

(** [LOAD_ATTR a]: a read of the object's attribute dictionary. *)
Definition getattr (v : value) (a : string) : M value :=
  fun s =>
    match read_attr (heap_of s) v a with
    | Some x => Normal x s
    | None => Raise (AttributeError a) s
    end.

(** [STORE_ATTR a]: a write into the object's attribute dictionary. *)
Definition setattr (v : value) (a : string) (x : value) : M unit :=
  fun s =>
    let s1 := log (EvSetAttr v a x) s in
    match v with
    | VRef l =>
        match heap_of s !! l with
        | Some o => Normal tt (set_heap (<[l := <[a := x]> o]> (heap_of s)) s1)
        | None => Raise (AttributeError a) s1
        end
    | VNone => Raise (AttributeError a) s1
    end.

(** [recv.meth(args)]: control passes to the called code, which finds the
    method on the receiver and runs it. *)
Definition call_method (recv : value) (meth : string) (args : list value)
  : M value :=
  fun s =>
    let s1 := log (EvCall recv meth args) s in
    match ext_call W recv meth args (heap_of s) with
    | Returns v h => Normal v (set_heap h s1)
    | Throws e h => Raise e (set_heap h s1)
    | Hangs => NoReturn s1
    end.

(** [import name]: run the import, then bind the top-level package. *)
Definition import_module (name : string) : M unit :=
  fun s =>
    let s1 := log (EvImport name) s in
    match ext_import W name (heap_of s) with
    | Returns pkg h => Normal tt (set_global (top_component name) pkg (set_heap h s1))
    | Throws e h => Raise e (set_heap h s1)
    | Hangs => NoReturn s1
    end.

(** A dotted read [x.a1.a2...]. *)
Fixpoint getattrs (v : value) (attrs : list string) : M value :=
  match attrs with
  | [] => ret v
  | a :: rest => let! v' := getattr v a in getattrs v' rest
  end.

Definition load_path (x : string) (attrs : list string) : M value :=
  let! v := load_name x in getattrs v attrs.

(** An expression statement: evaluate, drop the value. *)
Definition discard (m : M value) : M unit :=
  let! _ := m in ret tt.

(** ** The launcher, statement by statement *)

(** line 6: [import noysim.viewer] *)
Definition stmt_import : M unit :=
  import_module "noysim.viewer".

(** line 8: [app = noysim.viewer.wx.PySimpleApp()] *)
Definition stmt_app : M unit :=
  let! wx := load_path "noysim" ["viewer"; "wx"] in
  let! a := call_method wx "PySimpleApp" [] in
  store_name "app" a.

(** line 9: [app.frame = noysim.viewer.ViewerFrame()]
    (the right-hand side is evaluated before the target [app]) *)
Definition stmt_frame : M unit :=
  let! viewer := load_path "noysim" ["viewer"] in
  let! w := call_method viewer "ViewerFrame" [] in
  let! a := load_name "app" in
  setattr a "frame" w.

(** line 10: [app.frame.Show()] *)
Definition stmt_show : M unit :=
  let! f := load_path "app" ["frame"] in
  discard (call_method f "Show" []).

(** line 11: [app.MainLoop()] *)
Definition stmt_mainloop : M unit :=
  let! a := load_name "app" in
  discard (call_method a "MainLoop" []).

(** Statements of a module run one after the other; nothing catches. *)
Fixpoint exec (stmts : list (M unit)) : M unit :=
  match stmts with
  | [] => ret tt
  | st :: rest => do! st in exec rest
  end.

Definition script : list (M unit) :=
  [stmt_import; stmt_app; stmt_frame; stmt_show; stmt_mainloop].

Definition runviewer : M unit := exec script.

(** A run of the launcher from a fresh log. *)
Definition launch (g : namespace) (h : heap) : result unit :=
  runviewer (start g h).

End Interp.

(** ** Views of the log *)

(** An event without the object identities in it: what was asked for, not
    of whom. *)
Inductive shape : Type :=
  | SImport (name : string)
  | SCall (meth : string) (nargs : nat)
  | SSetAttr (attr : string).

#[global] Instance shape_eq_dec : EqDecision shape.
Proof. solve_decision. Defined.

Definition shape_of (e : event) : shape :=
  match e with
  | EvImport name => SImport name
  | EvCall _ meth args => SCall meth (length args)
  | EvSetAttr _ attr _ => SSetAttr attr
  end.

Definition call_shape (sh : shape) : bool :=
  match sh with
  | SCall _ _ => true
  | _ => false
  end.

Definition call_shape_of (meth : string) (sh : shape) : bool :=
  match sh with
  | SCall m _ => bool_decide (m = meth)
  | _ => false
  end.

Definition store_shape (sh : shape) : bool :=
  match sh with
  | SSetAttr _ => true
  | _ => false
  end.

Definition is_call (e : event) : bool := call_shape (shape_of e).
Definition is_call_of (meth : string) (e : event) : bool :=
  call_shape_of meth (shape_of e).
Definition is_setattr (e : event) : bool := store_shape (shape_of e).

(** The calls in a log, in order. *)
Definition calls (evs : list event) : list event := List.filter is_call evs.

(** How many times [meth] was called. *)
Definition count_calls (meth : string) (evs : list event) : nat :=
  length (List.filter (is_call_of meth) evs).

(** The attribute stores in a log, in order. *)
Definition stores (evs : list event) : list event := List.filter is_setattr evs.

(** Whether the log shows the event loop being entered. *)
Definition enters_loop (evs : list event) : bool :=
  existsb (is_call_of "MainLoop") evs.

(** The shapes of the five statements, and of the whole script. *)
Definition stmt_shapes : list (list shape) :=
  [ [SImport "noysim.viewer"];
    [SCall "PySimpleApp" 0];
    [SCall "ViewerFrame" 0; SSetAttr "frame"];
    [SCall "Show" 0];
    [SCall "MainLoop" 0] ].

Definition script_shape : list shape := concat stmt_shapes.

(** The four calls of the launcher. *)
Definition four_calls : list shape :=
  [SCall "PySimpleApp" 0; SCall "ViewerFrame" 0; SCall "Show" 0; SCall "MainLoop" 0].

(** ** Predicates used in the statements below *)

(** A computation that only reads: it stops in the state it started in,
    with a value or an exception. *)
Definition reads {A} (m : M A) : Prop :=
  forall s, (exists v, m s = Normal v s) \/ (exists e, m s = Raise e s).

(** [m] logs a prefix of the shapes [sh], all of them when it completes. *)
Definition emits {A} (m : M A) (sh : list shape) : Prop :=
  forall s, exists evs,
    events (m s) = trace s ++ evs
    /\ map shape_of evs `prefix_of` sh
    /\ (completed (m s) = true -> map shape_of evs = sh).

(** The state in which the first three statements leave the launcher when
    they complete: package imported, application constructed and bound to
    [app], window constructed and stored in the application's [frame]. *)
Inductive attached (W : World) (s : state) : state -> Prop :=
  | Attached pkg wx viewer la w h1 h2 h3 o :
      ext_import W "noysim.viewer" (heap_of s) = Returns pkg h1 ->
      read_path h1 pkg ["viewer"; "wx"] = Some wx ->
      ext_call W wx "PySimpleApp" [] h1 = Returns (VRef la) h2 ->
      read_path h2 pkg ["viewer"] = Some viewer ->
      ext_call W viewer "ViewerFrame" [] h2 = Returns w h3 ->
      h3 !! la = Some o ->
      attached W s
        {| globals := <["app" := VRef la]> (<["noysim" := pkg]> (globals s));
           heap_of := <[la := <["frame" := w]> o]> h3;
           trace := trace s ++ [ EvImport "noysim.viewer";
                                 EvCall wx "PySimpleApp" [];
                                 EvCall viewer "ViewerFrame" [];
                                 EvSetAttr (VRef la) "frame" w ] |}.

(** The called code leaves [frame] attributes alone while showing the
    window and running the event loop. *)
Definition keeps_frame (W : World) : Prop :=
  forall recv meth args h v h',
    meth = "Show" \/ meth = "MainLoop" ->
    ext_call W recv meth args h = Returns v h' ->
    forall l, read_attr h' (VRef l) "frame" = read_attr h (VRef l) "frame".

(** Two states that differ at most in the names outside [X]. *)
Definition agree (X : list string) (s1 s2 : state) : Prop :=
  heap_of s1 = heap_of s2
  /\ trace s1 = trace s2
  /\ Forall (fun x => globals s1 !! x = globals s2 !! x) X.

(** Two runs that stopped the same way, with the same heap and log; when
    they completed, in states that agree on [X]. *)
Definition same_run {A} (X : list string) (r1 r2 : result A) : Prop :=
  match r1, r2 with
  | Normal a1 s1, Normal a2 s2 => a1 = a2 /\ agree X s1 s2
  | Raise e1 s1, Raise e2 s2 => e1 = e2 /\ agree [] s1 s2
  | NoReturn s1, NoReturn s2 => agree [] s1 s2
  | _, _ => False
  end.

(** ** A concrete world

    Module objects at 1 ([noysim]), 2 ([noysim.viewer]) and 3 ([wx]); the
    application object is allocated at 4 and the window at 5.  Any one of the
    five external operations can be made to raise or to hang. *)

Inductive fault : Type :=
  | Fine
  | Fails (e : exn)
  | Stuck.

Definition faulty (f : fault) (ok : outcome) (h : heap) : outcome :=
  match f with
  | Fine => ok
  | Fails e => Throws e h
  | Stuck => Hangs
  end.

Definition demo_import (f : string -> fault) (name : string) (h : heap) : outcome :=
  if bool_decide (name = "noysim.viewer") then
    faulty (f "import")
      (Returns (VRef 1)
         (<[1%positive := {["viewer" := VRef 2]} ]>
            (<[2%positive := {["wx" := VRef 3]} ]>
               (<[3%positive := ∅ ]> h)))) h
  else Throws (ImportError name) h.

Definition demo_call (f : string -> fault)
    (recv : value) (meth : string) (args : list value) (h : heap) : outcome :=
  if bool_decide (recv = VRef 3 /\ meth = "PySimpleApp" /\ args = []) then
    faulty (f meth) (Returns (VRef 4) (<[4%positive := ∅]> h)) h
  else if bool_decide (recv = VRef 2 /\ meth = "ViewerFrame" /\ args = []) then
    faulty (f meth) (Returns (VRef 5) (<[5%positive := ∅]> h)) h
  else if bool_decide (recv = VRef 5 /\ meth = "Show" /\ args = []) then
    faulty (f meth) (Returns VNone h) h
  else if bool_decide (recv = VRef 4 /\ meth = "MainLoop" /\ args = []) then
    faulty (f meth) (Returns VNone h) h
  else Throws (AttributeError meth) h.

Definition demo_world (f : string -> fault) : World :=
  {| ext_import := demo_import f; ext_call := demo_call f |}.

Definition no_fault : string -> fault := fun _ => Fine.

Definition fault_at (op : string) (ft : fault) : string -> fault :=
  fun x => if bool_decide (x = op) then ft else Fine.

(** The world in which everything works, and worlds in which the event
    loop never returns, showing the window fails, the import fails. *)
Definition all_fine : World := demo_world no_fault.
Definition loop_hangs : World := demo_world (fault_at "MainLoop" Stuck).
Definition show_fails : World :=
  demo_world (fault_at "Show" (Fails (OtherError "display"))).
Definition import_fails : World :=
  demo_world (fault_at "import" (Fails (ImportError "wx"))).

Definition demo_events : list event :=
  [ EvImport "noysim.viewer";
    EvCall (VRef 3) "PySimpleApp" [];
    EvCall (VRef 2) "ViewerFrame" [];
    EvSetAttr (VRef 4) "frame" (VRef 5);
    EvCall (VRef 5) "Show" [];
    EvCall (VRef 4) "MainLoop" [] ].

(** ** Assertions on the namespace, and where exceptions come from *)





(** * Facts about the interpreter *)

Example demo_run_events :
  events (launch all_fine ∅ ∅) = demo_events.
Proof. vm_compute. reflexivity. Qed.

Example demo_run_completes :
  completed (launch all_fine ∅ ∅) = true.
Proof. vm_compute. reflexivity. Qed.

Example demo_run_show_fails :
  events (launch show_fails ∅ ∅) = take 5 demo_events.
Proof. vm_compute. reflexivity. Qed.

Lemma top_component_viewer : top_component "noysim.viewer" = "noysim".
Proof. reflexivity. Qed.

Lemma reads_bind {A B} (m : M A) (k : A -> M B) :
  reads m -> (forall a, reads (k a)) -> reads (bind m k).
Proof.
  intros Hm Hk s. unfold bind.
  destruct (Hm s) as [[v ->] | [e ->]]; [apply Hk | right; eauto].
Qed.

Section Facts.
Context (W : World).

Lemma load_name_reads x : reads (load_name x).
Proof.
  intros s. unfold load_name.
  destruct (globals s !! x); [left | right]; eauto.
Qed.

Lemma getattr_reads v a : reads (getattr v a).
Proof.
  intros s. unfold getattr.
  destruct (read_attr (heap_of s) v a); [left | right]; eauto.
Qed.

Lemma getattrs_reads attrs : forall v, reads (getattrs v attrs).
Proof.
  induction attrs as [|a rest IH]; intros v; simpl.
  - intros s. left. eauto.
  - apply reads_bind; [apply getattr_reads | auto].
Qed.

Lemma load_path_reads x attrs : reads (load_path x attrs).
Proof.
  apply reads_bind; [apply load_name_reads | apply getattrs_reads].
Qed.

(** Reading back what was just bound or stored. *)
Lemma load_name_bound x v s :
  globals s !! x = Some v -> load_name x s = Normal v s.
Proof. intros H. unfold load_name. by rewrite H. Qed.

Lemma load_name_inv x v s s' :
  load_name x s = Normal v s' -> globals s !! x = Some v /\ s' = s.
Proof.
  unfold load_name. destruct (globals s !! x); intros H; by simplify_eq.
Qed.

Lemma getattrs_normal attrs : forall v x s s',
  getattrs v attrs s = Normal x s' <->
  read_path (heap_of s) v attrs = Some x /\ s' = s.
Proof.
  induction attrs as [|a rest IH]; intros v x s s'; simpl.
  - unfold ret. split; [intros H; by simplify_eq | intros [H ->]; by simplify_eq].
  - unfold bind, getattr.
    destruct (read_attr (heap_of s) v a) as [v'|]; simpl; [apply IH|].
    split; [done | by intros [? _]].
Qed.

Lemma load_path_normal x attrs v s s' :
  load_path x attrs s = Normal v s' <->
  (exists r, globals s !! x = Some r /\ read_path (heap_of s) r attrs = Some v)
  /\ s' = s.
Proof.
  unfold load_path, bind, load_name.
  destruct (globals s !! x) as [r|].
  - rewrite getattrs_normal. split.
    + intros [H ->]. eauto.
    + intros [(r' & Hr & H) ->]. by simplify_eq.
  - split; [done | by intros [(r & Hr & _) _]].
Qed.

(** *** What each primitive logs *)

Lemma ret_emits {A} (a : A) : emits (ret a) [].
Proof.
  intros s. exists []. unfold events, ret. simpl. by rewrite app_nil_r.
Qed.

Lemma call_method_emits recv meth args :
  emits (call_method W recv meth args) [SCall meth (length args)].
Proof.
  intros s. exists [EvCall recv meth args].
  unfold call_method, events.
  destruct (ext_call W recv meth args (heap_of s)); simpl; done.
Qed.

Lemma import_module_emits name : emits (import_module W name) [SImport name].
Proof.
  intros s. exists [EvImport name].
  unfold import_module, events.
  destruct (ext_import W name (heap_of s)); simpl; done.
Qed.

Lemma setattr_emits v a x : emits (setattr v a x) [SSetAttr a].
Proof.
  intros s. exists [EvSetAttr v a x].
  unfold setattr, events. destruct v as [|l]; simpl; [done|].
  destruct (heap_of s !! l); simpl; done.
Qed.

Lemma store_name_emits x v : emits (store_name x v) [].
Proof.
  intros s. exists []. unfold events, store_name. simpl. by rewrite app_nil_r.
Qed.

(** *** Composition *)

Lemma emits_after_read {A B} (m : M A) (k : A -> M B) sh :
  reads m -> (forall a, emits (k a) sh) -> emits (bind m k) sh.
Proof.
  intros Hm Hk s. unfold bind.
  destruct (Hm s) as [[v ->] | [e ->]]; [apply Hk|].
  exists []. unfold events. simpl. rewrite app_nil_r.
  split_and!; [done | apply prefix_nil | done].
Qed.

Lemma emits_bind {A B} (m : M A) (k : A -> M B) sh1 sh2 :
  emits m sh1 -> (forall a, emits (k a) sh2) ->
  emits (bind m k) (sh1 ++ sh2).
Proof.
  intros Hm Hk s. unfold bind.
  destruct (Hm s) as (evs1 & Hev1 & Hpre1 & Hall1).
  unfold events in *.
  destruct (m s) as [a s1 | e s1 | s1] eqn:Hms; simpl in *.
  - destruct (Hk a s1) as (evs2 & Hev2 & Hpre2 & Hall2).
    unfold events in Hev2.
    exists (evs1 ++ evs2). rewrite Hev2, Hev1, map_app, Hall1 by done.
    split_and!.
    + by rewrite app_assoc.
    + by apply prefix_app.
    + intros Hc. by rewrite Hall2.
  - exists evs1. split_and!; [done | by apply prefix_app_r | done].
  - exists evs1. split_and!; [done | by apply prefix_app_r | done].
Qed.

Lemma exec_emits stmts shs :
  Forall2 emits stmts shs -> emits (exec stmts) (concat shs).
Proof.
  induction 1 as [|st sh stmts shs Hst _ IH]; simpl.
  - apply ret_emits.
  - apply emits_bind; [done | intros _; exact IH].
Qed.

(** *** What each statement logs *)

Lemma discard_emits (m : M value) sh : emits m sh -> emits (discard m) sh.
Proof.
  intros Hm. unfold discard.
  rewrite <- (app_nil_r sh).
  apply emits_bind; [done | intros _; apply ret_emits].
Qed.

Lemma stmt_import_emits : emits (stmt_import W) [SImport "noysim.viewer"].
Proof. apply import_module_emits. Qed.

Lemma stmt_app_emits : emits (stmt_app W) [SCall "PySimpleApp" 0].
Proof.
  apply emits_after_read; [apply load_path_reads | intros wx].
  apply (emits_bind _ _ [SCall "PySimpleApp" 0] []).
  - apply (call_method_emits wx "PySimpleApp" []).
  - intros a. apply store_name_emits.
Qed.

Lemma stmt_frame_emits :
  emits (stmt_frame W) [SCall "ViewerFrame" 0; SSetAttr "frame"].
Proof.
  apply emits_after_read; [apply load_path_reads | intros viewer].
  apply (emits_bind _ _ [SCall "ViewerFrame" 0] [SSetAttr "frame"]).
  - apply (call_method_emits viewer "ViewerFrame" []).
  - intros w. apply emits_after_read; [apply load_name_reads | intros a].
    apply setattr_emits.
Qed.

Lemma stmt_show_emits : emits (stmt_show W) [SCall "Show" 0].
Proof.
  apply emits_after_read; [apply load_path_reads | intros f].
  apply discard_emits, (call_method_emits f "Show" []).
Qed.

Lemma stmt_mainloop_emits : emits (stmt_mainloop W) [SCall "MainLoop" 0].
Proof.
  apply emits_after_read; [apply load_name_reads | intros a].
  apply discard_emits, (call_method_emits a "MainLoop" []).
Qed.

Lemma script_emits : Forall2 emits (script W) stmt_shapes.
Proof.
  unfold script, stmt_shapes.
  repeat constructor.
  - apply stmt_import_emits.
  - apply stmt_app_emits.
  - apply stmt_frame_emits.
  - apply stmt_show_emits.
  - apply stmt_mainloop_emits.
Qed.

(** Every initial segment of the script logs an initial segment of the
    script's shapes. *)
Lemma script_take_emits n :
  emits (exec (take n (script W))) (concat (take n stmt_shapes)).
Proof. apply exec_emits, Forall2_take, script_emits. Qed.

Lemma runviewer_emits : emits (runviewer W) script_shape.
Proof. apply exec_emits, script_emits. Qed.

(** *** Normal completion, step by step *)

Lemma bind_normal {A B} (m : M A) (k : A -> M B) s b s' :
  bind m k s = Normal b s' <->
  exists a s1, m s = Normal a s1 /\ k a s1 = Normal b s'.
Proof.
  unfold bind. destruct (m s) as [a s1 | e s1 | s1].
  - split; [eauto | intros (a' & s1' & H & Hk); by simplify_eq].
  - split; [done | intros (a' & s1' & H & _); done].
  - split; [done | intros (a' & s1' & H & _); done].
Qed.

Lemma exec_cons_normal st rest s s' :
  exec (st :: rest) s = Normal tt s' <->
  exists s1, st s = Normal tt s1 /\ exec rest s1 = Normal tt s'.
Proof.
  simpl. rewrite bind_normal. split.
  - intros ([] & s1 & H1 & H2). eauto.
  - intros (s1 & H1 & H2). eauto.
Qed.

Lemma exec_app l1 l2 s :
  exec (l1 ++ l2) s = bind (exec l1) (fun _ => exec l2) s.
Proof.
  revert s. induction l1 as [|st l1 IH]; intros s; simpl; [done|].
  unfold bind. destruct (st s) as [[] s1 | e s1 | s1]; [|done..].
  by rewrite IH.
Qed.

Lemma call_method_normal recv meth args v s s' :
  call_method W recv meth args s = Normal v s' <->
  exists h, ext_call W recv meth args (heap_of s) = Returns v h
            /\ s' = set_heap h (log (EvCall recv meth args) s).
Proof.
  unfold call_method.
  destruct (ext_call W recv meth args (heap_of s)) as [v' h | e h |].
  - split; [intros H; simplify_eq; eauto | intros (h' & H & ->); by simplify_eq].
  - split; [done | by intros (h' & H & _)].
  - split; [done | by intros (h' & H & _)].
Qed.

Lemma setattr_normal v a x s s' :
  setattr v a x s = Normal tt s' <->
  exists l o, v = VRef l /\ heap_of s !! l = Some o
              /\ s' = set_heap (<[l := <[a := x]> o]> (heap_of s))
                               (log (EvSetAttr v a x) s).
Proof.
  unfold setattr. destruct v as [|l].
  - split; [done | by intros (l & o & H & _)].
  - destruct (heap_of s !! l) as [o|] eqn:Hl.
    + split; [intros H; simplify_eq; eauto | intros (l' & o' & H & Ho & ->); by simplify_eq].
    + split; [done | intros (l' & o' & H & Ho & _); by simplify_eq].
Qed.

(** The launcher's store changes one attribute of one object, and
    nothing else. *)
Lemma setattr_frame l o a x s s' :
  heap_of s !! l = Some o ->
  s' = set_heap (<[l := <[a := x]> o]> (heap_of s)) (log (EvSetAttr (VRef l) a x) s) ->
  globals s' = globals s
  /\ read_attr (heap_of s') (VRef l) a = Some x
  /\ (forall l' a', (l', a') <> (l, a) ->
        read_attr (heap_of s') (VRef l') a' = read_attr (heap_of s) (VRef l') a')
  /\ dom (heap_of s') = dom (heap_of s).
Proof.
  intros Hl ->. simpl. split_and!.
  - done.
  - by rewrite lookup_insert_eq; simpl; rewrite lookup_insert_eq.
  - intros l' a' Hne. destruct (decide (l' = l)) as [->|Hll].
    + rewrite lookup_insert_eq, Hl. simpl.
      apply lookup_insert_ne. congruence.
    + by rewrite lookup_insert_ne.
  - apply dom_insert_lookup_L. by rewrite Hl.
Qed.

Lemma stmt_import_normal s s1 :
  stmt_import W s = Normal tt s1 <->
  exists pkg h1,
    ext_import W "noysim.viewer" (heap_of s) = Returns pkg h1
    /\ s1 = set_global "noysim" pkg (set_heap h1 (log (EvImport "noysim.viewer") s)).
Proof.
  unfold stmt_import, import_module. rewrite top_component_viewer.
  destruct (ext_import W "noysim.viewer" (heap_of s)) as [pkg h1 | e h1 |].
  - split; [intros H; simplify_eq; eauto | intros (pkg' & h' & H & ->); by simplify_eq].
  - split; [done | by intros (pkg' & h' & H & _)].
  - split; [done | by intros (pkg' & h' & H & _)].
Qed.

Lemma stmt_app_normal s s1 :
  stmt_app W s = Normal tt s1 <->
  exists pkg wx a h,
    globals s !! "noysim" = Some pkg
    /\ read_path (heap_of s) pkg ["viewer"; "wx"] = Some wx
    /\ ext_call W wx "PySimpleApp" [] (heap_of s) = Returns a h
    /\ s1 = set_global "app" a (set_heap h (log (EvCall wx "PySimpleApp" []) s)).
Proof.
  unfold stmt_app. rewrite bind_normal. split.
  - intros (wx & s0 & Hwx & H).
    apply load_path_normal in Hwx as [(pkg & Hpkg & Hpath) ->].
    apply bind_normal in H as (a & s2 & Hcall & Hst).
    apply call_method_normal in Hcall as (h & Hcall & ->).
    unfold store_name in Hst. simplify_eq. eauto 10.
  - intros (pkg & wx & a & h & Hpkg & Hpath & Hcall & ->).
    exists wx, s. split; [apply load_path_normal; eauto|].
    apply bind_normal. eexists _, _. split; [|done].
    apply call_method_normal. eauto.
Qed.

Lemma stmt_frame_normal s s1 :
  stmt_frame W s = Normal tt s1 <->
  exists pkg viewer w h la o,
    globals s !! "noysim" = Some pkg
    /\ read_path (heap_of s) pkg ["viewer"] = Some viewer
    /\ ext_call W viewer "ViewerFrame" [] (heap_of s) = Returns w h
    /\ globals s !! "app" = Some (VRef la)
    /\ h !! la = Some o
    /\ s1 = set_heap (<[la := <["frame" := w]> o]> h)
              (log (EvSetAttr (VRef la) "frame" w)
                 (set_heap h (log (EvCall viewer "ViewerFrame" []) s))).
Proof.
  unfold stmt_frame. rewrite bind_normal. split.
  - intros (viewer & s0 & Hv & H).
    apply load_path_normal in Hv as [(pkg & Hpkg & Hpath) ->].
    apply bind_normal in H as (w & s2 & Hcall & H).
    apply call_method_normal in Hcall as (h & Hcall & ->).
    apply bind_normal in H as (a & s3 & Ha & Hset).
    apply load_name_inv in Ha as [Ha ->].
    apply setattr_normal in Hset as (la & o & -> & Ho & ->).
    exists pkg, viewer, w, h, la, o. done.
  - intros (pkg & viewer & w & h & la & o & Hpkg & Hpath & Hcall & Ha & Ho & ->).
    exists viewer, s. split; [apply load_path_normal; eauto|].
    apply bind_normal. eexists _, _. split; [apply call_method_normal; eauto|].
    apply bind_normal. eexists _, _. split; [by apply load_name_bound|].
    apply setattr_normal. eauto.
Qed.

(** The statements after the attach, whatever the called code does. *)
Lemma stmt_show_run s la o w :
  globals s !! "app" = Some (VRef la) ->
  heap_of s !! la = Some o -> o !! "frame" = Some w ->
  stmt_show W s =
    match ext_call W w "Show" [] (heap_of s) with
    | Returns _ h => Normal tt (set_heap h (log (EvCall w "Show" []) s))
    | Throws e h => Raise e (set_heap h (log (EvCall w "Show" []) s))
    | Hangs => NoReturn (log (EvCall w "Show" []) s)
    end.
Proof.
  intros Ha Ho Hw. unfold stmt_show, bind at 1.
  assert (load_path "app" ["frame"] s = Normal w s) as ->.
  { apply load_path_normal. split; [|done]. exists (VRef la). split; [done|].
    simpl. rewrite Ho. simpl. by rewrite Hw. }
  unfold discard, bind, call_method.
  by destruct (ext_call W w "Show" [] (heap_of s)).
Qed.

Lemma stmt_mainloop_run s a :
  globals s !! "app" = Some a ->
  stmt_mainloop W s =
    match ext_call W a "MainLoop" [] (heap_of s) with
    | Returns _ h => Normal tt (set_heap h (log (EvCall a "MainLoop" []) s))
    | Throws e h => Raise e (set_heap h (log (EvCall a "MainLoop" []) s))
    | Hangs => NoReturn (log (EvCall a "MainLoop" []) s)
    end.
Proof.
  intros Ha. unfold stmt_mainloop, bind at 1.
  rewrite (load_name_bound "app" a s Ha).
  unfold discard, bind, call_method.
  by destruct (ext_call W a "MainLoop" [] (heap_of s)).
Qed.

(** *** The launcher up to the attach, and after it *)

Lemma script_split n :
  script W = take n (script W) ++ drop n (script W).
Proof. by rewrite take_drop. Qed.

Lemma attach_inv s s3 :
  exec (take 3 (script W)) s = Normal tt s3 -> attached W s s3.
Proof.
  unfold script. simpl take. intros H.
  apply exec_cons_normal in H as (s1 & H1 & H).
  apply exec_cons_normal in H as (s2 & H2 & H).
  apply exec_cons_normal in H as (s3' & H3 & H).
  unfold exec, ret in H. simplify_eq.
  apply stmt_import_normal in H1 as (pkg & h1 & Himp & ->).
  apply stmt_app_normal in H2 as (pkg' & wx & a & h2 & Hpkg & Hwx & Happ & ->).
  apply stmt_frame_normal in H3
    as (pkg'' & viewer & w & h3 & la & o & Hpkg' & Hv & Hwin & Ha & Ho & ->).
  simpl in *.
  rewrite lookup_insert_eq in Hpkg. simplify_eq.
  rewrite lookup_insert_eq in Ha. simplify_eq.
  rewrite lookup_insert_ne, lookup_insert_eq in Hpkg' by done. simplify_eq.
  unfold set_heap, log, set_global. simpl.
  rewrite <- !app_assoc. simpl.
  by eapply Attached.
Qed.

(** Lines 10 and 11 from a state in which [app.frame] holds [w]. *)
Lemma show_and_loop_run s la o w :
  globals s !! "app" = Some (VRef la) ->
  heap_of s !! la = Some o -> o !! "frame" = Some w ->
  exec [stmt_show W; stmt_mainloop W] s =
    match ext_call W w "Show" [] (heap_of s) with
    | Returns _ h4 =>
        let s4 := set_heap h4 (log (EvCall w "Show" []) s) in
        match ext_call W (VRef la) "MainLoop" [] h4 with
        | Returns _ h5 =>
            Normal tt (set_heap h5 (log (EvCall (VRef la) "MainLoop" []) s4))
        | Throws e h5 =>
            Raise e (set_heap h5 (log (EvCall (VRef la) "MainLoop" []) s4))
        | Hangs => NoReturn (log (EvCall (VRef la) "MainLoop" []) s4)
        end
    | Throws e h4 => Raise e (set_heap h4 (log (EvCall w "Show" []) s))
    | Hangs => NoReturn (log (EvCall w "Show" []) s)
    end.
Proof.
  intros Ha Ho Hw. simpl. unfold bind at 1.
  rewrite (stmt_show_run s la o w Ha Ho Hw).
  destruct (ext_call W w "Show" [] (heap_of s)) as [v h4 | e h4 |]; [|done..].
  unfold bind.
  rewrite (stmt_mainloop_run _ (VRef la)) by done. simpl.
  by destruct (ext_call W (VRef la) "MainLoop" [] h4).
Qed.

(** An exception in any statement ends the run of the whole list. *)
Lemma exec_raise stmts n st s s1 e s2 :
  stmts !! n = Some st ->
  exec (take n stmts) s = Normal tt s1 ->
  st s1 = Raise e s2 ->
  exec stmts s = Raise e s2.
Proof.
  intros Hn Hpre Hst.
  rewrite <- (take_drop_middle stmts n st Hn), exec_app.
  unfold bind. rewrite Hpre. simpl. unfold bind. by rewrite Hst.
Qed.
End Facts.

(** ** Facts about logs and shapes *)

(** Case analysis on membership in an explicit list. *)
Ltac elem_cases H :=
  repeat (apply elem_of_cons in H as [H|H]; [simplify_eq|]);
  try (by apply elem_of_nil in H).

Lemma filter_shape_of (P : shape -> bool) (evs : list event) :
  map shape_of (List.filter (fun e => P (shape_of e)) evs)
  = List.filter P (map shape_of evs).
Proof.
  induction evs as [|e evs IH]; simpl; [done|].
  destruct (P (shape_of e)); simpl; by rewrite IH.
Qed.

Lemma filter_prefix {A} (P : A -> bool) (l1 l2 : list A) :
  l1 `prefix_of` l2 -> List.filter P l1 `prefix_of` List.filter P l2.
Proof. intros [k ->]. rewrite List.filter_app. by apply prefix_app_r. Qed.

Lemma calls_shapes evs :
  map shape_of (calls evs) = List.filter call_shape (map shape_of evs).
Proof. apply (filter_shape_of call_shape). Qed.

Lemma stores_shapes evs :
  map shape_of (stores evs) = List.filter store_shape (map shape_of evs).
Proof. apply (filter_shape_of store_shape). Qed.

Lemma count_calls_shapes meth evs :
  count_calls meth evs
  = length (List.filter (call_shape_of meth) (map shape_of evs)).
Proof.
  unfold count_calls.
  rewrite <- (filter_shape_of (call_shape_of meth)). by rewrite length_map.
Qed.

Lemma count_calls_prefix meth evs (shs : list shape) :
  map shape_of evs `prefix_of` shs ->
  count_calls meth evs <= length (List.filter (call_shape_of meth) shs).
Proof.
  intros H. rewrite count_calls_shapes.
  by apply prefix_length, filter_prefix.
Qed.

Lemma enters_loop_shapes evs :
  enters_loop evs = existsb (call_shape_of "MainLoop") (map shape_of evs).
Proof.
  unfold enters_loop. induction evs as [|e evs IH]; simpl; [done|].
  by rewrite IH.
Qed.

Lemma concat_take_prefix n : concat (take n stmt_shapes) `prefix_of` script_shape.
Proof.
  unfold script_shape. rewrite <- (take_drop n stmt_shapes) at 2.
  rewrite concat_app. by apply prefix_app_r.
Qed.

(** A prefix of the script's shapes is one of seven lists. *)
Lemma prefix_script_cases (shs : list shape) :
  shs `prefix_of` script_shape -> exists k, k <= 6 /\ shs = take k script_shape.
Proof.
  intros H. exists (length shs). split.
  - apply (prefix_length _ _ H).
  - destruct H as [k Hk]. rewrite Hk. by rewrite take_app_length.
Qed.

(** In the script's shapes the call of [MainLoop] comes last. *)
Lemma mainloop_last_shape (pre post : list shape) n :
  (pre ++ SCall "MainLoop" n :: post) `prefix_of` script_shape -> post = [].
Proof.
  intros [k Hk]. unfold script_shape in Hk. simpl in Hk.
  do 6 (destruct pre as [|? pre]; simpl in Hk; [simplify_eq; try done|];
        try (injection Hk as _ Hk)).
  - by destruct post.
  - by destruct pre.
Qed.

(** A prefix of the script's shapes that reaches [MainLoop] is all of it. *)
Lemma reaches_loop_all (shs : list shape) :
  shs `prefix_of` script_shape ->
  existsb (call_shape_of "MainLoop") shs = true ->
  shs = script_shape.
Proof.
  intros H Hin. apply prefix_script_cases in H as (k & Hk & ->).
  do 6 (destruct k as [|k]; [vm_compute in Hin; done|]).
  destruct k; [done | lia].
Qed.

Section Runs.
Context (W : World).

(** From a fresh log, what a run logs is what it emits. *)
Lemma emits_start {A} (m : M A) sh g h :
  emits m sh ->
  map shape_of (events (m (start g h))) `prefix_of` sh
  /\ (completed (m (start g h)) = true ->
      map shape_of (events (m (start g h))) = sh).
Proof.
  intros Hm. destruct (Hm (start g h)) as (evs & Hev & Hpre & Hall).
  rewrite Hev. simpl. done.
Qed.

Lemma launch_shape_prefix g h :
  map shape_of (events (launch W g h)) `prefix_of` script_shape.
Proof. apply (emits_start (runviewer W)), runviewer_emits. Qed.

End Runs.

(** ** Two runs side by side *)

Section TwoRuns.
Context (W : World).

Lemma agree_nil X s1 s2 : agree X s1 s2 -> agree [] s1 s2.
Proof. intros (Hh & Ht & _). by split_and!. Qed.

Lemma same_bind {A B} X Y (m : M A) (k : A -> M B) s1 s2 :
  same_run X (m s1) (m s2) ->
  (forall a t1 t2, agree X t1 t2 -> same_run Y (k a t1) (k a t2)) ->
  same_run Y (bind m k s1) (bind m k s2).
Proof.
  intros Hm Hk. unfold bind.
  destruct (m s1) as [a1 t1 | e1 t1 | t1], (m s2) as [a2 t2 | e2 t2 | t2];
    simpl in Hm; try done.
  destruct Hm as [-> Hm]. by apply Hk.
Qed.

Lemma same_ret {A} X (a : A) s1 s2 :
  agree X s1 s2 -> same_run X (ret a s1) (ret a s2).
Proof. done. Qed.

Lemma same_load_name X x s1 s2 :
  x ∈ X -> agree X s1 s2 -> same_run X (load_name x s1) (load_name x s2).
Proof.
  intros Hx Hag. pose proof Hag as (Hh & Ht & Hg).
  rewrite Forall_forall in Hg. specialize (Hg x Hx).
  unfold load_name. rewrite Hg.
  destruct (globals s2 !! x); simpl; [done|].
  by split; [|eapply agree_nil].
Qed.

Lemma same_getattr X v a s1 s2 :
  agree X s1 s2 -> same_run X (getattr v a s1) (getattr v a s2).
Proof.
  intros Hag. pose proof Hag as (Hh & Ht & Hg).
  unfold getattr. rewrite Hh.
  destruct (read_attr (heap_of s2) v a); simpl; [done|].
  by split; [|eapply agree_nil].
Qed.

Lemma same_getattrs X attrs : forall v s1 s2,
  agree X s1 s2 -> same_run X (getattrs v attrs s1) (getattrs v attrs s2).
Proof.
  induction attrs as [|a rest IH]; intros v s1 s2 Hag; simpl.
  - by apply same_ret.
  - eapply same_bind; [by apply same_getattr | intros; by apply IH].
Qed.

Lemma same_load_path X x attrs s1 s2 :
  x ∈ X -> agree X s1 s2 ->
  same_run X (load_path x attrs s1) (load_path x attrs s2).
Proof.
  intros Hx Hag.
  eapply same_bind; [by apply same_load_name | intros; by apply same_getattrs].
Qed.

Lemma same_call_method X recv meth args s1 s2 :
  agree X s1 s2 ->
  same_run X (call_method W recv meth args s1) (call_method W recv meth args s2).
Proof.
  intros (Hh & Ht & Hg). unfold call_method. rewrite Hh.
  destruct (ext_call W recv meth args (heap_of s2)); simpl;
    unfold agree; simpl; rewrite Ht; by split_and?.
Qed.

Lemma same_setattr X v a x s1 s2 :
  agree X s1 s2 -> same_run X (setattr v a x s1) (setattr v a x s2).
Proof.
  intros (Hh & Ht & Hg). unfold setattr. rewrite Hh.
  destruct v as [|l]; [|destruct (heap_of s2 !! l)]; simpl;
    unfold agree; simpl; rewrite Ht; by split_and?.
Qed.

Lemma same_store_name X x v s1 s2 :
  agree X s1 s2 ->
  same_run (x :: X) (store_name x v s1) (store_name x v s2).
Proof.
  intros (Hh & Ht & Hg). simpl. split; [done|]. split_and!; simpl; try done.
  constructor; [by rewrite !lookup_insert_eq|].
  eapply Forall_impl; [exact Hg|]. intros y Hy. simpl in Hy.
  destruct (decide (x = y)) as [->|Hne];
    [by rewrite !lookup_insert_eq | by rewrite !lookup_insert_ne].
Qed.

Lemma same_import_module X name s1 s2 :
  agree X s1 s2 ->
  same_run (top_component name :: X)
    (import_module W name s1) (import_module W name s2).
Proof.
  intros (Hh & Ht & Hg). unfold import_module. rewrite Hh.
  destruct (ext_import W name (heap_of s2)) as [pkg h | e h |]; simpl;
    unfold agree; simpl; rewrite Ht; split_and?; try done.
  constructor; [by rewrite !lookup_insert_eq|].
  eapply Forall_impl; [exact Hg|]. intros y Hy. simpl in Hy.
  destruct (decide (top_component name = y)) as [->|Hne];
    [by rewrite !lookup_insert_eq | by rewrite !lookup_insert_ne].
Qed.

Lemma same_discard X (m : M value) s1 s2 :
  same_run X (m s1) (m s2) -> same_run X (discard m s1) (discard m s2).
Proof.
  intros Hm. eapply same_bind; [exact Hm | intros; by apply same_ret].
Qed.

(** The names the launcher reads are names it has bound itself. *)
Lemma same_runviewer s1 s2 :
  agree [] s1 s2 ->
  same_run ["app"; "noysim"] (runviewer W s1) (runviewer W s2).
Proof.
  intros Hag. unfold runviewer, script. simpl exec.
  eapply same_bind; [by apply (same_import_module [] "noysim.viewer")|].
  rewrite top_component_viewer. intros _ t1 t2 Ht.
  eapply same_bind.
  { unfold stmt_app.
    eapply same_bind; [eapply same_load_path; [|exact Ht]; set_solver|].
    intros wx u1 u2 Hu.
    eapply same_bind; [by apply same_call_method|].
    intros a. apply same_store_name. }
  clear. intros _ t1 t2 Ht.
  eapply same_bind.
  { unfold stmt_frame.
    eapply same_bind; [eapply same_load_path; [|exact Ht]; set_solver|].
    intros viewer u1 u2 Hu.
    eapply same_bind; [by apply same_call_method|].
    intros w v1 v2 Hv.
    eapply same_bind; [eapply same_load_name; [|exact Hv]; set_solver|].
    intros a. apply same_setattr. }
  clear. intros _ t1 t2 Ht.
  eapply same_bind.
  { unfold stmt_show.
    eapply same_bind; [eapply same_load_path; [|exact Ht]; set_solver|].
    intros f u1 u2 Hu. by apply same_discard, same_call_method. }
  clear. intros _ t1 t2 Ht.
  eapply same_bind.
  { unfold stmt_mainloop.
    eapply same_bind; [eapply same_load_name; [|exact Ht]; set_solver|].
    intros f u1 u2 Hu. by apply same_discard, same_call_method. }
  intros. by apply same_ret.
Qed.
End TwoRuns.

(** * The launcher *)

Section Launcher.
Context (W : World).

(** The script is the first three statements, then lines 10 and 11. *)
Lemma runviewer_split s :
  runviewer W s =
    match exec (take 3 (script W)) s with
    | Normal _ s3 => exec [stmt_show W; stmt_mainloop W] s3
    | Raise e s3 => Raise e s3
    | NoReturn s3 => NoReturn s3
    end.
Proof.
  unfold runviewer. rewrite (script_split W 3) at 1. by rewrite exec_app.
Qed.

(** A run that stops before the attach is over has logged no [Show]. *)
Lemma early_stop_shapes g h :
  map shape_of (events (exec (take 3 (script W)) (start g h)))
    `prefix_of` [SImport "noysim.viewer"; SCall "PySimpleApp" 0;
                 SCall "ViewerFrame" 0; SSetAttr "frame"].
Proof. apply (emits_start (exec (take 3 (script W)))), (script_take_emits W 3). Qed.

End Launcher.

(** ** C1: four operations, in order *)

(** C1.  The launcher script performs exactly four operations and no
    others, in this order: construct the application object, attach a
    newly constructed viewer window to it, show that window, and enter the
    UI event loop.  These are lines 8 to 11; the module import of line 6,
    which brings in the code they use, comes before them.  In every run,
    whatever the called code does, the log of the launcher is an initial
    segment of: the import, the call of [PySimpleApp], the call of
    [ViewerFrame] and the store of its result in [frame], the call of
    [Show], the call of [MainLoop]; its calls are an initial segment of
    these four.  A run that completes has logged all of them and nothing
    else: the application is what [PySimpleApp] returned, the window is
    what [ViewerFrame] returned, it is stored in the application's
    [frame], [Show] is called on it and [MainLoop] on the application. *)
Theorem launcher_four_operations (W : World) (g : namespace) (h : heap) :
  map shape_of (events (launch W g h)) `prefix_of` script_shape
  /\ map shape_of (calls (events (launch W g h))) `prefix_of` four_calls
  /\ (forall s', launch W g h = Normal tt s' ->
      exists pkg wx viewer la w h1 h2 h3,
        ext_import W "noysim.viewer" h = Returns pkg h1
        /\ read_path h1 pkg ["viewer"; "wx"] = Some wx
        /\ ext_call W wx "PySimpleApp" [] h1 = Returns (VRef la) h2
        /\ read_path h2 pkg ["viewer"] = Some viewer
        /\ ext_call W viewer "ViewerFrame" [] h2 = Returns w h3
        /\ trace s' = [ EvImport "noysim.viewer";
                        EvCall wx "PySimpleApp" [];
                        EvCall viewer "ViewerFrame" [];
                        EvSetAttr (VRef la) "frame" w;
                        EvCall w "Show" [];
                        EvCall (VRef la) "MainLoop" [] ]
        /\ calls (trace s') = [ EvCall wx "PySimpleApp" [];
                                EvCall viewer "ViewerFrame" [];
                                EvCall w "Show" [];
                                EvCall (VRef la) "MainLoop" [] ]).
Proof.
  split_and!.
  - apply launch_shape_prefix.
  - rewrite calls_shapes.
    apply (filter_prefix call_shape _ script_shape), launch_shape_prefix.
  - intros s' Hrun. unfold launch in Hrun. rewrite runviewer_split in Hrun.
    destruct (exec (take 3 (script W)) (start g h)) as [[] s3 | |] eqn:H3;
      [|done..].
    apply attach_inv in H3.
    destruct H3 as [pkg wx viewer la w h1 h2 h3 o Himp Hwx Happ Hv Hwin Ho].
    rewrite (show_and_loop_run W _ la (<["frame" := w]> o) w) in Hrun;
      simpl; try by rewrite lookup_insert_eq.
    simpl in Hrun.
    destruct (ext_call W w "Show" [] _) as [r4 h4 | |]; [|done..].
    destruct (ext_call W (VRef la) "MainLoop" [] h4) as [r5 h5 | |]; [|done..].
    simplify_eq. exists pkg, wx, viewer, la, w, h1, h2, h3. done.
Qed.

Lemma launcher_four_operations_witness :
  launch all_fine ∅ ∅
    = Normal tt (final (launch all_fine ∅ ∅))
  /\ exists pkg wx viewer la w h1 h2 h3,
       ext_import all_fine "noysim.viewer" ∅ = Returns pkg h1
       /\ read_path h1 pkg ["viewer"; "wx"] = Some wx
       /\ ext_call all_fine wx "PySimpleApp" [] h1 = Returns (VRef la) h2
       /\ read_path h2 pkg ["viewer"] = Some viewer
       /\ ext_call all_fine viewer "ViewerFrame" [] h2 = Returns w h3
       /\ trace (final (launch all_fine ∅ ∅))
          = [ EvImport "noysim.viewer";
              EvCall wx "PySimpleApp" [];
              EvCall viewer "ViewerFrame" [];
              EvSetAttr (VRef la) "frame" w;
              EvCall w "Show" [];
              EvCall (VRef la) "MainLoop" [] ]
       /\ calls (trace (final (launch all_fine ∅ ∅)))
          = [ EvCall wx "PySimpleApp" [];
              EvCall viewer "ViewerFrame" [];
              EvCall w "Show" [];
              EvCall (VRef la) "MainLoop" [] ].
Proof.
  split; [vm_compute; reflexivity|].
  destruct (launcher_four_operations all_fine ∅ ∅) as (_ & _ & H).
  apply H. vm_compute. reflexivity.
Defined.

(** ** C2: the event loop is entered last *)

(** The state after line 10, when the first four statements complete. *)
Lemma after_show_inv (W : World) s s4 :
  exec (take 4 (script W)) s = Normal tt s4 ->
  exists s3 la w v,
    attached W s s3
    /\ globals s3 !! "app" = Some (VRef la)
    /\ read_attr (heap_of s3) (VRef la) "frame" = Some w
    /\ ext_call W w "Show" [] (heap_of s3) = Returns v (heap_of s4)
    /\ s4 = set_heap (heap_of s4) (log (EvCall w "Show" []) s3).
Proof.
  change (take 4 (script W)) with (take 3 (script W) ++ [stmt_show W]).
  rewrite exec_app. intros H.
  apply bind_normal in H as ([] & s3 & H3 & H).
  apply attach_inv in H3. pose proof H3 as Hatt.
  destruct H3 as [pkg wx viewer la w h1 h2 h3 o Himp Hwx Happ Hv Hwin Ho].
  apply exec_cons_normal in H as (s4' & H & Hret).
  unfold exec, ret in Hret. simplify_eq.
  rewrite (stmt_show_run W _ la (<["frame" := w]> o) w) in H;
    simpl; try by rewrite lookup_insert_eq.
  simpl in H.
  destruct (ext_call W w "Show" [] _) as [v h4 | |] eqn:Hshow; [|done..].
  simplify_eq.
  eexists _, la, w, v. split_and!; [exact Hatt | | | exact Hshow | done]; simpl.
  - by rewrite lookup_insert_eq.
  - rewrite lookup_insert_eq. simpl. by rewrite lookup_insert_eq.
Qed.

(** The launcher is its first four statements, then line 11. *)
Lemma runviewer_last (W : World) s :
  runviewer W s =
    match exec (take 4 (script W)) s with
    | Normal _ s4 => stmt_mainloop W s4
    | Raise e s4 => Raise e s4
    | NoReturn s4 => NoReturn s4
    end.
Proof.
  unfold runviewer. rewrite (script_split W 4) at 1. rewrite exec_app.
  unfold bind. destruct (exec (take 4 (script W)) s) as [[] s4 | |]; [|done..].
  simpl. unfold bind, ret. by destruct (stmt_mainloop W s4) as [[] ? | |].
Qed.

(** C2.  The UI event loop is blocking and is entered last.  In every run
    the call of [MainLoop], if the log has it, is the last entry of the
    log: no further launcher operation follows it.  Once the first four
    statements have completed, the outcome of the launcher is the outcome
    of that call: the launcher completes if the call returns, raises what
    the call raises, and does not come back if the call does not.  A run
    of the launcher that completes has come back from [MainLoop], and its
    final heap is the one [MainLoop] returned with. *)
Theorem mainloop_blocks_and_is_last (W : World) (g : namespace) (h : heap) :
  (forall pre recv args post,
      events (launch W g h) = pre ++ EvCall recv "MainLoop" args :: post ->
      post = [])
  /\ (forall s4,
      exec (take 4 (script W)) (start g h) = Normal tt s4 ->
      exists a,
        globals s4 !! "app" = Some a
        /\ launch W g h =
             match ext_call W a "MainLoop" [] (heap_of s4) with
             | Returns _ h5 =>
                 Normal tt (set_heap h5 (log (EvCall a "MainLoop" []) s4))
             | Throws e h5 =>
                 Raise e (set_heap h5 (log (EvCall a "MainLoop" []) s4))
             | Hangs => NoReturn (log (EvCall a "MainLoop" []) s4)
             end)
  /\ (forall s',
      launch W g h = Normal tt s' ->
      exists s4 a v,
        exec (take 4 (script W)) (start g h) = Normal tt s4
        /\ globals s4 !! "app" = Some a
        /\ ext_call W a "MainLoop" [] (heap_of s4) = Returns v (heap_of s')
        /\ trace s' = trace s4 ++ [EvCall a "MainLoop" []]
        /\ globals s' = globals s4).
Proof.
  assert (forall s4, exec (take 4 (script W)) (start g h) = Normal tt s4 ->
            exists la, globals s4 !! "app" = Some (VRef la)) as Happ.
  { intros s4 H4.
    apply after_show_inv in H4 as (s3 & la & w & v & _ & Ha & _ & _ & ->).
    by exists la. }
  split_and!.
  - intros pre recv args post Hev.
    pose proof (launch_shape_prefix W g h) as Hpre.
    rewrite Hev, map_app in Hpre. simpl in Hpre.
    apply mainloop_last_shape in Hpre. by destruct post.
  - intros s4 H4. destruct (Happ s4 H4) as [la Ha]. exists (VRef la).
    split; [done|]. unfold launch. rewrite runviewer_last, H4.
    by apply stmt_mainloop_run.
  - intros s' Hrun. unfold launch in Hrun. rewrite runviewer_last in Hrun.
    destruct (exec (take 4 (script W)) (start g h)) as [[] s4 | |] eqn:H4;
      [|done..].
    destruct (Happ s4 eq_refl) as [la Ha].
    rewrite (stmt_mainloop_run W s4 (VRef la) Ha) in Hrun.
    destruct (ext_call W (VRef la) "MainLoop" [] (heap_of s4))
      as [v h5 | |] eqn:Hloop; [|done..].
    simplify_eq. by exists s4, (VRef la), v.
Qed.

Lemma mainloop_blocks_and_is_last_witness :
  exec (take 4 (script loop_hangs)) (start ∅ ∅)
    = Normal tt (final (exec (take 4 (script loop_hangs)) (start ∅ ∅)))
  /\ exists a,
       globals (final (exec (take 4 (script loop_hangs)) (start ∅ ∅))) !! "app"
         = Some a
       /\ launch loop_hangs ∅ ∅ =
            match ext_call loop_hangs a "MainLoop" []
                    (heap_of (final (exec (take 4 (script loop_hangs)) (start ∅ ∅))))
            with
            | Returns _ h5 =>
                Normal tt (set_heap h5 (log (EvCall a "MainLoop" [])
                   (final (exec (take 4 (script loop_hangs)) (start ∅ ∅)))))
            | Throws e h5 =>
                Raise e (set_heap h5 (log (EvCall a "MainLoop" [])
                   (final (exec (take 4 (script loop_hangs)) (start ∅ ∅)))))
            | Hangs =>
                NoReturn (log (EvCall a "MainLoop" [])
                   (final (exec (take 4 (script loop_hangs)) (start ∅ ∅))))
            end.
Proof.
  split; [vm_compute; reflexivity|].
  apply (mainloop_blocks_and_is_last loop_hangs ∅ ∅).
  vm_compute. reflexivity.
Defined.

(** When the event loop never returns, neither does the launcher. *)
Example loop_hangs_run :
  launch loop_hangs ∅ ∅ = NoReturn (final (launch loop_hangs ∅ ∅))
  /\ events (launch loop_hangs ∅ ∅) = demo_events.
Proof. split; vm_compute; reflexivity. Qed.

(** ** C3: one application, one window *)

(** C3.  Throughout the launcher's execution there is exactly one
    application object and exactly one viewer window: no launcher
    operation ever constructs a second one.  After any number [n] of
    statements, and however the run of these statements stopped, the log
    has at most one call of [PySimpleApp] and at most one call of
    [ViewerFrame]; once line 8 has completed it has exactly one call of
    [PySimpleApp], and once line 9 has completed exactly one call of
    [ViewerFrame].  With [n] at least 5 this is the whole launcher. *)
Theorem one_app_one_window (W : World) (g : namespace) (h : heap) (n : nat) :
  count_calls "PySimpleApp" (events (exec (take n (script W)) (start g h))) <= 1
  /\ count_calls "ViewerFrame" (events (exec (take n (script W)) (start g h))) <= 1
  /\ (completed (exec (take n (script W)) (start g h)) = true ->
      2 <= n ->
      count_calls "PySimpleApp" (events (exec (take n (script W)) (start g h))) = 1)
  /\ (completed (exec (take n (script W)) (start g h)) = true ->
      3 <= n ->
      count_calls "ViewerFrame" (events (exec (take n (script W)) (start g h))) = 1).
Proof.
  destruct (emits_start (exec (take n (script W))) _ g h (script_take_emits W n))
    as [Hpre Hall].
  assert (map shape_of (events (exec (take n (script W)) (start g h)))
            `prefix_of` script_shape) as Hscript.
  { etrans; [exact Hpre | apply concat_take_prefix]. }
  split_and!.
  - apply (count_calls_prefix "PySimpleApp") in Hscript. exact Hscript.
  - apply (count_calls_prefix "ViewerFrame") in Hscript. exact Hscript.
  - intros Hc Hn. rewrite count_calls_shapes, (Hall Hc).
    do 5 (destruct n as [|n]; [first [lia | reflexivity]|]).
    simpl take. by rewrite take_nil.
  - intros Hc Hn. rewrite count_calls_shapes, (Hall Hc).
    do 5 (destruct n as [|n]; [first [lia | reflexivity]|]).
    simpl take. by rewrite take_nil.
Qed.

Lemma one_app_one_window_witness :
  completed (exec (take 5 (script all_fine)) (start ∅ ∅)) = true
  /\ 2 <= 5
  /\ count_calls "PySimpleApp"
       (events (exec (take 5 (script all_fine)) (start ∅ ∅))) = 1.
Proof.
  split; [vm_compute; reflexivity|]. split; [lia|].
  apply (one_app_one_window all_fine ∅ ∅ 5); [vm_compute; reflexivity | lia].
Defined.

(** ** C4: the window shown is the window attached *)

(** Line 10 calls [Show] on whatever [app.frame] holds. *)
Lemma stmt_show_receiver (W : World) s la f :
  globals s !! "app" = Some (VRef la) ->
  read_attr (heap_of s) (VRef la) "frame" = Some f ->
  events (stmt_show W s) = trace s ++ [EvCall f "Show" []].
Proof.
  intros Ha Hf. simpl in Hf.
  destruct (heap_of s !! la) as [o|] eqn:Ho; [|done]. simpl in Hf.
  rewrite (stmt_show_run W s la o f Ha Ho Hf). unfold events.
  by destruct (ext_call W f "Show" [] (heap_of s)).
Qed.

(** C4.  The window that is shown is the very same window object that was
    attached to the application.  In every run, a call of [Show] in the
    log has no arguments and its receiver is the value that the one
    attribute store of the log put into [frame] of the object bound to
    [app].  Line 10 issues [Show] on the value the application's [frame]
    attribute holds at that moment.  When the run completes, and the
    called code leaves [frame] attributes alone while showing the window
    and running the event loop, the application's [frame] in the final
    heap is the receiver of the one [Show] call. *)
Theorem shown_window_is_attached_frame (W : World) (g : namespace) (h : heap) :
  (forall recv args,
      EvCall recv "Show" args ∈ events (launch W g h) ->
      args = []
      /\ exists la,
           globals (final (launch W g h)) !! "app" = Some (VRef la)
           /\ stores (events (launch W g h)) = [EvSetAttr (VRef la) "frame" recv])
  /\ (forall s la f,
      globals s !! "app" = Some (VRef la) ->
      read_attr (heap_of s) (VRef la) "frame" = Some f ->
      events (stmt_show W s) = trace s ++ [EvCall f "Show" []])
  /\ (keeps_frame W ->
      forall s', launch W g h = Normal tt s' ->
      exists la w,
        globals s' !! "app" = Some (VRef la)
        /\ read_attr (heap_of s') (VRef la) "frame" = Some w
        /\ List.filter (is_call_of "Show") (trace s') = [EvCall w "Show" []]
        /\ stores (trace s') = [EvSetAttr (VRef la) "frame" w]).
Proof.
  split_and!.
  - intros recv args Hin. unfold launch in *.
    rewrite runviewer_split in *.
    pose proof (early_stop_shapes W g h) as Hearly.
    assert (forall r : result unit,
               map shape_of (events r) `prefix_of`
                 [SImport "noysim.viewer"; SCall "PySimpleApp" 0;
                  SCall "ViewerFrame" 0; SSetAttr "frame"] ->
               EvCall recv "Show" args ∈ events r -> False) as Hno.
    { intros r [k Hk] Hr.
      apply (list_elem_of_fmap_2 shape_of) in Hr. simpl in Hr.
      assert (SCall "Show" (length args)
                ∈ [SImport "noysim.viewer"; SCall "PySimpleApp" 0;
                   SCall "ViewerFrame" 0; SSetAttr "frame"]) as Hbad.
      { rewrite Hk. apply elem_of_app. by left. }
      elem_cases Hbad. }
    destruct (exec (take 3 (script W)) (start g h)) as [[] s3 | e s3 | s3] eqn:H3.
    + apply attach_inv in H3.
      destruct H3 as [pkg wx viewer la w h1 h2 h3 o Himp Hwx Happ Hv Hwin Ho].
      rewrite (show_and_loop_run W _ la (<["frame" := w]> o) w) in *;
        simpl; try by rewrite lookup_insert_eq.
      simpl in *.
      destruct (ext_call W w "Show" [] _) as [r4 h4 | e4 h4 |];
        [destruct (ext_call W (VRef la) "MainLoop" [] h4) as [r5 h5 | e5 h5 |]|..];
        unfold events in *; simpl in *;
        (assert (recv = w /\ args = []) as [-> ->] by (elem_cases Hin; done));
        (split; [done|]); exists la; by rewrite lookup_insert_eq.
    + exfalso. by apply (Hno (Raise e s3)).
    + exfalso. by apply (Hno (NoReturn s3)).
  - apply stmt_show_receiver.
  - intros Hkeep s' Hrun. unfold launch in Hrun. rewrite runviewer_split in Hrun.
    destruct (exec (take 3 (script W)) (start g h)) as [[] s3 | |] eqn:H3;
      [|done..].
    apply attach_inv in H3.
    destruct H3 as [pkg wx viewer la w h1 h2 h3 o Himp Hwx Happ Hv Hwin Ho].
    rewrite (show_and_loop_run W _ la (<["frame" := w]> o) w) in Hrun;
      simpl; try by rewrite lookup_insert_eq.
    simpl in Hrun.
    destruct (ext_call W w "Show" [] _) as [r4 h4 | |] eqn:Hshow; [|done..].
    destruct (ext_call W (VRef la) "MainLoop" [] h4) as [r5 h5 | |] eqn:Hloop;
      [|done..].
    simplify_eq. exists la, w. split_and!.
    + simpl. by rewrite lookup_insert_eq.
    + change (read_attr h5 (VRef la) "frame" = Some w).
      rewrite (Hkeep _ _ _ _ _ _ (or_intror eq_refl) Hloop la).
      rewrite (Hkeep _ _ _ _ _ _ (or_introl eq_refl) Hshow la).
      simpl. rewrite lookup_insert_eq. simpl. by rewrite lookup_insert_eq.
    + done.
    + done.
Qed.

(** The concrete worlds leave the heap alone in [Show] and [MainLoop]. *)
Lemma demo_keeps_frame (f : string -> fault) : keeps_frame (demo_world f).
Proof.
  intros recv meth args h v h' Hm Hcall l. simpl in Hcall.
  unfold demo_call, faulty in Hcall.
  repeat case_bool_decide; destruct_and?; destruct Hm; simplify_eq;
    destruct (f _); by simplify_eq.
Qed.

Lemma shown_window_is_attached_frame_witness :
  keeps_frame all_fine
  /\ launch all_fine ∅ ∅ = Normal tt (final (launch all_fine ∅ ∅))
  /\ exists la w,
       globals (final (launch all_fine ∅ ∅)) !! "app" = Some (VRef la)
       /\ read_attr (heap_of (final (launch all_fine ∅ ∅))) (VRef la) "frame"
          = Some w
       /\ List.filter (is_call_of "Show") (trace (final (launch all_fine ∅ ∅)))
          = [EvCall w "Show" []]
       /\ stores (trace (final (launch all_fine ∅ ∅)))
          = [EvSetAttr (VRef la) "frame" w].
Proof.
  split; [apply demo_keeps_frame|].
  split; [vm_compute; reflexivity|].
  apply (shown_window_is_attached_frame all_fine ∅ ∅);
    [apply demo_keeps_frame | vm_compute; reflexivity].
Defined.

(** ** C5: nothing catches *)

(** C5.  The launcher has no failure-handling policy: it installs no
    exception handler, so any error raised by importing the viewer module,
    constructing the application, constructing or showing the window, or
    running the event loop propagates out of the script unhandled.  An
    exception with which any statement of the script stops, the statements
    before it having completed, is the exception with which the launcher
    stops, in the state in which it was raised; and each of the five
    statements stops with the exception its import or its call raises. *)
Theorem errors_propagate_unhandled (W : World) :
  (forall n st s s1 e s2,
      script W !! n = Some st ->
      exec (take n (script W)) s = Normal tt s1 ->
      st s1 = Raise e s2 ->
      runviewer W s = Raise e s2)
  /\ (forall s e h',
      ext_import W "noysim.viewer" (heap_of s) = Throws e h' ->
      stmt_import W s = Raise e (set_heap h' (log (EvImport "noysim.viewer") s)))
  /\ (forall s wx e h',
      load_path "noysim" ["viewer"; "wx"] s = Normal wx s ->
      ext_call W wx "PySimpleApp" [] (heap_of s) = Throws e h' ->
      stmt_app W s = Raise e (set_heap h' (log (EvCall wx "PySimpleApp" []) s)))
  /\ (forall s viewer e h',
      load_path "noysim" ["viewer"] s = Normal viewer s ->
      ext_call W viewer "ViewerFrame" [] (heap_of s) = Throws e h' ->
      stmt_frame W s
      = Raise e (set_heap h' (log (EvCall viewer "ViewerFrame" []) s)))
  /\ (forall s f e h',
      load_path "app" ["frame"] s = Normal f s ->
      ext_call W f "Show" [] (heap_of s) = Throws e h' ->
      stmt_show W s = Raise e (set_heap h' (log (EvCall f "Show" []) s)))
  /\ (forall s a e h',
      load_name "app" s = Normal a s ->
      ext_call W a "MainLoop" [] (heap_of s) = Throws e h' ->
      stmt_mainloop W s = Raise e (set_heap h' (log (EvCall a "MainLoop" []) s))).
Proof.
  split_and!.
  - intros n st s s1 e s2. apply exec_raise.
  - intros s e h' H. unfold stmt_import, import_module. by rewrite H.
  - intros s wx e h' Hwx H. unfold stmt_app, bind. rewrite Hwx.
    unfold call_method. by rewrite H.
  - intros s viewer e h' Hv H. unfold stmt_frame, bind. rewrite Hv.
    unfold call_method. by rewrite H.
  - intros s f e h' Hf H. unfold stmt_show, discard, bind. rewrite Hf.
    unfold call_method. by rewrite H.
  - intros s a e h' Ha H. unfold stmt_mainloop, discard, bind. rewrite Ha.
    unfold call_method. by rewrite H.
Qed.

Lemma errors_propagate_unhandled_witness :
  script show_fails !! 3 = Some (stmt_show show_fails)
  /\ exec (take 3 (script show_fails)) (start ∅ ∅)
     = Normal tt (final (exec (take 3 (script show_fails)) (start ∅ ∅)))
  /\ stmt_show show_fails (final (exec (take 3 (script show_fails)) (start ∅ ∅)))
     = Raise (OtherError "display") (final (launch show_fails ∅ ∅))
  /\ runviewer show_fails (start ∅ ∅)
     = Raise (OtherError "display") (final (launch show_fails ∅ ∅)).
Proof.
  split; [reflexivity|].
  split; [vm_compute; reflexivity|].
  split; [vm_compute; reflexivity|].
  apply (proj1 (errors_propagate_unhandled show_fails) 3 (stmt_show show_fails)
           (start ∅ ∅) (final (exec (take 3 (script show_fails)) (start ∅ ∅)))).
  - reflexivity.
  - vm_compute. reflexivity.
  - vm_compute. reflexivity.
Defined.

(** ** C6: a failed import leaves nothing behind *)

(** C6.  If the import of the viewer module fails, the launcher creates no
    application object and shows no window.  When the import raises, the
    launcher stops with that exception, having logged the import and
    nothing else: no call and no attribute store.  Its namespace is the
    initial one (no [noysim], no [app] bound by it) and the heap is the one
    the import left. *)
Theorem import_failure_creates_nothing
    (W : World) (g : namespace) (h : heap) (e : exn) (h' : heap) :
  ext_import W "noysim.viewer" h = Throws e h' ->
  launch W g h
    = Raise e {| globals := g; heap_of := h'; trace := [EvImport "noysim.viewer"] |}
  /\ calls (events (launch W g h)) = []
  /\ stores (events (launch W g h)) = []
  /\ globals (final (launch W g h)) = g
  /\ heap_of (final (launch W g h)) = h'.
Proof.
  intros Himp.
  assert (launch W g h
          = Raise e {| globals := g; heap_of := h';
                       trace := [EvImport "noysim.viewer"] |}) as ->.
  { unfold launch, runviewer, script. simpl exec. unfold bind at 1.
    unfold stmt_import, import_module. simpl. by rewrite Himp. }
  done.
Qed.

Lemma import_failure_creates_nothing_witness :
  ext_import import_fails "noysim.viewer" ∅ = Throws (ImportError "wx") ∅
  /\ launch import_fails ∅ ∅
     = Raise (ImportError "wx")
         {| globals := ∅; heap_of := ∅; trace := [EvImport "noysim.viewer"] |}.
Proof.
  split; [reflexivity|].
  apply (import_failure_creates_nothing import_fails ∅ ∅ (ImportError "wx") ∅).
  reflexivity.
Defined.

(** ** C7: the attach changes one attribute *)

(** C7.  The only mutation the launcher performs on the application object
    is binding its [frame] attribute to the new viewer window; every other
    field of the application object, and all other program state visible
    to the launcher, is left unchanged by the attach step.  In every run
    the launcher issues at most one attribute store, and it is a store
    into [frame].  When line 9 completes, [ViewerFrame] has returned a
    window [w] and a heap [hc]; the store is then made into the object
    bound to [app]; after it the namespace is the same, [frame] of that
    object holds [w], every other attribute of every object reads as it
    did in [hc], and the heap has the same objects as [hc]. *)
Theorem attach_changes_only_frame (W : World) :
  (forall g h,
      map shape_of (stores (events (launch W g h))) `prefix_of` [SSetAttr "frame"])
  /\ (forall s s',
      stmt_frame W s = Normal tt s' ->
      exists viewer w hc la,
        ext_call W viewer "ViewerFrame" [] (heap_of s) = Returns w hc
        /\ globals s !! "app" = Some (VRef la)
        /\ globals s' = globals s
        /\ read_attr (heap_of s') (VRef la) "frame" = Some w
        /\ (forall l a, (l, a) <> (la, "frame") ->
              read_attr (heap_of s') (VRef l) a = read_attr hc (VRef l) a)
        /\ dom (heap_of s') = dom hc
        /\ stores (trace s') = stores (trace s) ++ [EvSetAttr (VRef la) "frame" w]).
Proof.
  split.
  - intros g h. rewrite stores_shapes.
    apply (filter_prefix store_shape _ script_shape), launch_shape_prefix.
  - intros s s' H.
    apply stmt_frame_normal in H
      as (pkg & viewer & w & hc & la & o & Hpkg & Hv & Hwin & Ha & Ho & Hs').
    exists viewer, w, hc, la.
    destruct (setattr_frame la o "frame" w
                (set_heap hc (log (EvCall viewer "ViewerFrame" []) s)) s'
                Ho Hs') as (Hg & Hframe & Hothers & Hdom).
    split_and!; try done.
    rewrite Hs'. simpl. unfold stores.
    by rewrite <- app_assoc, List.filter_app.
Qed.

Lemma attach_changes_only_frame_witness :
  stmt_frame all_fine (final (exec (take 2 (script all_fine)) (start ∅ ∅)))
    = Normal tt (final (exec (take 3 (script all_fine)) (start ∅ ∅)))
  /\ exists viewer w hc la,
       ext_call all_fine viewer "ViewerFrame" []
         (heap_of (final (exec (take 2 (script all_fine)) (start ∅ ∅))))
         = Returns w hc
       /\ globals (final (exec (take 2 (script all_fine)) (start ∅ ∅))) !! "app"
          = Some (VRef la)
       /\ globals (final (exec (take 3 (script all_fine)) (start ∅ ∅)))
          = globals (final (exec (take 2 (script all_fine)) (start ∅ ∅)))
       /\ read_attr (heap_of (final (exec (take 3 (script all_fine)) (start ∅ ∅))))
            (VRef la) "frame" = Some w
       /\ (forall l a, (l, a) <> (la, "frame") ->
             read_attr (heap_of (final (exec (take 3 (script all_fine)) (start ∅ ∅))))
               (VRef l) a
             = read_attr hc (VRef l) a)
       /\ dom (heap_of (final (exec (take 3 (script all_fine)) (start ∅ ∅))))
          = dom hc
       /\ stores (trace (final (exec (take 3 (script all_fine)) (start ∅ ∅))))
          = stores (trace (final (exec (take 2 (script all_fine)) (start ∅ ∅))))
            ++ [EvSetAttr (VRef la) "frame" w].
Proof.
  split; [vm_compute; reflexivity|].
  apply (proj2 (attach_changes_only_frame all_fine)).
  vm_compute. reflexivity.
Defined.

(** ** C8: the launcher reads no input *)

(** C8.  The launcher reads no input, so any two runs of the launcher
    perform the identical sequence of four calls.  Take two runs, in any
    two worlds, from any two initial namespaces and heaps (the command
    line, the environment and what the user does are part of these).  If
    both enter the event loop, they have logged the same operations, and
    their calls are the four calls of the launcher: [PySimpleApp],
    [ViewerFrame], [Show], [MainLoop], without arguments.  If they have
    logged equally many operations, they have logged the same ones.  And
    in one world, from one heap, the run does not depend on the initial
    namespace: it stops the same way with the same heap and log. *)
Theorem launcher_reads_no_input
    (W1 W2 : World) (g1 g2 : namespace) (h1 h2 : heap) :
  (enters_loop (events (launch W1 g1 h1)) = true ->
   enters_loop (events (launch W2 g2 h2)) = true ->
   map shape_of (events (launch W1 g1 h1)) = map shape_of (events (launch W2 g2 h2))
   /\ map shape_of (calls (events (launch W1 g1 h1))) = four_calls
   /\ map shape_of (calls (events (launch W2 g2 h2))) = four_calls)
  /\ (length (events (launch W1 g1 h1)) = length (events (launch W2 g2 h2)) ->
      map shape_of (events (launch W1 g1 h1))
      = map shape_of (events (launch W2 g2 h2)))
  /\ same_run ["app"; "noysim"] (launch W1 g1 h1) (launch W1 g2 h1).
Proof.
  pose proof (launch_shape_prefix W1 g1 h1) as Hp1.
  pose proof (launch_shape_prefix W2 g2 h2) as Hp2.
  split_and!.
  - intros H1 H2. rewrite enters_loop_shapes in H1, H2.
    apply (reaches_loop_all _ Hp1) in H1.
    apply (reaches_loop_all _ Hp2) in H2.
    rewrite !calls_shapes, H1, H2. done.
  - intros Hlen.
    apply prefix_script_cases in Hp1 as (k1 & Hk1 & Hs1).
    apply prefix_script_cases in Hp2 as (k2 & Hk2 & Hs2).
    assert (k1 = k2) as ->; [|congruence].
    apply (f_equal length) in Hs1, Hs2.
    rewrite length_map, length_take in Hs1, Hs2.
    change (length script_shape) with 6 in *. lia.
  - apply same_runviewer. by split_and!.
Qed.

Lemma launcher_reads_no_input_witness :
  enters_loop (events (launch all_fine ∅ ∅)) = true
  /\ enters_loop
       (events (launch loop_hangs {["__file__" := VRef 9]} {[9%positive := ∅]}))
     = true
  /\ map shape_of (events (launch all_fine ∅ ∅))
     = map shape_of
         (events (launch loop_hangs {["__file__" := VRef 9]} {[9%positive := ∅]}))
  /\ map shape_of (calls (events (launch all_fine ∅ ∅))) = four_calls
  /\ map shape_of
       (calls (events (launch loop_hangs {["__file__" := VRef 9]} {[9%positive := ∅]})))
     = four_calls.
Proof.
  split; [vm_compute; reflexivity|].
  split; [vm_compute; reflexivity|].
  apply (launcher_reads_no_input all_fine loop_hangs
           ∅ {["__file__" := VRef 9]} ∅ {[9%positive := ∅]});
    vm_compute; reflexivity.
Defined.

(** * Further properties of the launcher *)


(** ** Rules for namespace assertions *)

Section NsRules.
Context (W : World).















End NsRules.

(** ** X1: where the launcher's exceptions come from *)



(** ** X2: the names the launcher binds *)

Section Binds.
Context (W : World).










End Binds.



(** ** X3: after the attach the launcher does not fail on its own *)



(** ** X4: when the launcher completes *)

(** The first three statements complete in every state of the kind
    [attached] describes. *)
Lemma attach_complete (W : World) s s3 :
  attached W s s3 -> exec (take 3 (script W)) s = Normal tt s3.
Proof.
  intros [pkg wx viewer la w h1 h2 h3 o Himp Hwx Happ Hv Hwin Ho].
  unfold script. simpl take.
  apply exec_cons_normal. eexists. split.
  { apply stmt_import_normal. eauto. }
  apply exec_cons_normal. eexists. split.
  { apply stmt_app_normal. exists pkg, wx, (VRef la), h2. split_and!; try done.
    simpl. by rewrite lookup_insert_eq. }
  apply exec_cons_normal. eexists. split.
  { apply stmt_frame_normal. exists pkg, viewer, w, h3, la, o.
    split_and!; try done; simpl.
    - by rewrite lookup_insert_ne, lookup_insert_eq.
    - by rewrite lookup_insert_eq. }
  unfold exec, ret, set_heap, log, set_global. simpl.
  by rewrite <- !app_assoc.
Qed.

(** X4.  The launcher completes exactly when: the import returns a
    package; [viewer.wx] can be read off it and [PySimpleApp] returns an
    object; [viewer] can still be read and [ViewerFrame] returns; [Show],
    called in the heap in which the window is already stored in the
    application's [frame], returns; and [MainLoop], called in the heap
    [Show] left, returns.  The final state then has [noysim] bound to the
    package and [app] to the application, the heap [MainLoop] left, and
    the six operations in the log. *)
Theorem launcher_completes_iff
    (W : World) (g : namespace) (h : heap) (s' : state) :
  launch W g h = Normal tt s' <->
  exists pkg wx viewer la w o h1 h2 h3 r4 h4 r5 h5,
    ext_import W "noysim.viewer" h = Returns pkg h1
    /\ read_path h1 pkg ["viewer"; "wx"] = Some wx
    /\ ext_call W wx "PySimpleApp" [] h1 = Returns (VRef la) h2
    /\ read_path h2 pkg ["viewer"] = Some viewer
    /\ ext_call W viewer "ViewerFrame" [] h2 = Returns w h3
    /\ h3 !! la = Some o
    /\ ext_call W w "Show" [] (<[la := <["frame" := w]> o]> h3) = Returns r4 h4
    /\ ext_call W (VRef la) "MainLoop" [] h4 = Returns r5 h5
    /\ s' = {| globals := <["app" := VRef la]> (<["noysim" := pkg]> g);
               heap_of := h5;
               trace := [ EvImport "noysim.viewer";
                          EvCall wx "PySimpleApp" [];
                          EvCall viewer "ViewerFrame" [];
                          EvSetAttr (VRef la) "frame" w;
                          EvCall w "Show" [];
                          EvCall (VRef la) "MainLoop" [] ] |}.
Proof.
  unfold launch. rewrite runviewer_split. split.
  - intros Hrun.
    destruct (exec (take 3 (script W)) (start g h)) as [[] s3 | |] eqn:H3;
      [|done..].
    apply attach_inv in H3.
    destruct H3 as [pkg wx viewer la w h1 h2 h3 o Himp Hwx Happ Hv Hwin Ho].
    rewrite (show_and_loop_run W _ la (<["frame" := w]> o) w) in Hrun;
      simpl; try by rewrite lookup_insert_eq.
    simpl in Hrun.
    destruct (ext_call W w "Show" [] _) as [r4 h4 | |] eqn:Hshow; [|done..].
    destruct (ext_call W (VRef la) "MainLoop" [] h4) as [r5 h5 | |] eqn:Hloop;
      [|done..].
    simplify_eq. exists pkg, wx, viewer, la, w, o, h1, h2, h3, r4, h4, r5, h5.
    done.
  - intros (pkg & wx & viewer & la & w & o & h1 & h2 & h3 & r4 & h4 & r5 & h5
            & Himp & Hwx & Happ & Hv & Hwin & Ho & Hshow & Hloop & ->).
    rewrite (attach_complete W (start g h) _
               (Attached W (start g h) pkg wx viewer la w h1 h2 h3 o
                  Himp Hwx Happ Hv Hwin Ho)).
    rewrite (show_and_loop_run W _ la (<["frame" := w]> o) w);
      simpl; try by rewrite lookup_insert_eq.
    by rewrite Hshow, Hloop.
Qed.

Lemma launcher_completes_iff_witness :
  launch all_fine ∅ ∅ = Normal tt (final (launch all_fine ∅ ∅))
  /\ exists pkg wx viewer la w o h1 h2 h3 r4 h4 r5 h5,
       ext_import all_fine "noysim.viewer" ∅ = Returns pkg h1
       /\ read_path h1 pkg ["viewer"; "wx"] = Some wx
       /\ ext_call all_fine wx "PySimpleApp" [] h1 = Returns (VRef la) h2
       /\ read_path h2 pkg ["viewer"] = Some viewer
       /\ ext_call all_fine viewer "ViewerFrame" [] h2 = Returns w h3
       /\ h3 !! la = Some o
       /\ ext_call all_fine w "Show" [] (<[la := <["frame" := w]> o]> h3)
          = Returns r4 h4
       /\ ext_call all_fine (VRef la) "MainLoop" [] h4 = Returns r5 h5
       /\ final (launch all_fine ∅ ∅)
          = {| globals := <["app" := VRef la]> (<["noysim" := pkg]> ∅);
               heap_of := h5;
               trace := [ EvImport "noysim.viewer";
                          EvCall wx "PySimpleApp" [];
                          EvCall viewer "ViewerFrame" [];
                          EvSetAttr (VRef la) "frame" w;
                          EvCall w "Show" [];
                          EvCall (VRef la) "MainLoop" [] ] |}.
Proof.
  split; [vm_compute; reflexivity|].
  apply (proj1 (launcher_completes_iff all_fine ∅ ∅ (final (launch all_fine ∅ ∅)))).
  vm_compute. reflexivity.
Defined.
